(** * Batch illustration generator (index.js): model and verified properties

    The program reads a list of ingredient names, mints an access token
    from an [id.secret] key, optionally asks a vision endpoint for a
    style description of a reference picture, and then, item by item,
    builds a prompt, calls the generation endpoint and downloads the
    picture.  index.js holds two listings of the script; the second one,
    which has the style extraction, is the one modelled here.

    JavaScript strings are sequences of UTF-16 code units; they are
    modelled as [list N].  Numbers that the program computes with are
    integers far below 2^53, where doubles are exact; they are modelled
    as [Z].  Everything the program obtains from outside (environment,
    files, clock, remote replies) is a field of a [world] record, and
    the effects of a run are recorded in a [state] holding the trace of
    events and the files written. *)

From Stdlib Require Import ZArith NArith List Lia Ascii String.
From stdpp Require Import gmap list.
Import ListNotations.

Local Open Scope list_scope.
Set Warnings "-register-all".

(** ** JavaScript strings *)

Module JsString.

Local Open Scope N_scope.

Abbreviation jsstring := (list N).

(** ASCII literals, written as Rocq strings, as code units. *)
Definition js (s : string) : jsstring :=
  List.map N_of_ascii (list_ascii_of_string s).

Definition cu_dollar : N := 36.     (* $ *)
Definition cu_amp : N := 38.        (* & *)
Definition cu_quote : N := 39.      (* ' *)
Definition cu_comma : N := 44.      (* , *)
Definition cu_dot : N := 46.        (* . *)
Definition cu_backtick : N := 96.   (* ` *)
Definition cu_newline : N := 10.    (* \n *)
Definition cu_fullwidth_comma : N := 0xFF0C.  (* U+FF0C *)

(** [s.length > 0], and the truthiness of a string. *)
Definition nonempty (s : jsstring) : bool :=
  match s with [] => false | _ :: _ => true end.

(** White space and line terminators removed by [String.prototype.trim]. *)
Definition is_trim_space (c : N) : bool :=
  ((9 <=? c) && (c <=? 13))
  || (c =? 0x20) || (c =? 0xA0) || (c =? 0x1680)
  || ((0x2000 <=? c) && (c <=? 0x200A))
  || (c =? 0x2028) || (c =? 0x2029) || (c =? 0x202F)
  || (c =? 0x205F) || (c =? 0x3000) || (c =? 0xFEFF).

Fixpoint trimStart (s : jsstring) : jsstring :=
  match s with
  | [] => []
  | c :: s' => if is_trim_space c then trimStart s' else s
  end.

Definition trimEnd (s : jsstring) : jsstring :=
  rev (trimStart (rev s)).

(** [s.trim()] *)
Definition trim (s : jsstring) : jsstring := trimEnd (trimStart s).

(** [s.split(sep)] for a separator that matches exactly one code unit
    satisfying [p]: a one-character string, or a regular expression that
    is an alternation of single characters without capture groups.  The
    result always has at least one segment. *)
Fixpoint split_on (p : N -> bool) (s : jsstring) : list jsstring :=
  match s with
  | [] => [[]]
  | c :: s' =>
      if p c then [] :: split_on p s'
      else match split_on p s' with
           | [] => [[c]]
           | seg :: segs => (c :: seg) :: segs
           end
  end.

(** [s.includes(c)] for a one-character string [c]. *)
Definition includes (c : N) (s : jsstring) : bool :=
  existsb (N.eqb c) s.

(** [lines.join(sep)] for a one-character separator. *)
Fixpoint join (sep : N) (parts : list jsstring) : jsstring :=
  match parts with
  | [] => []
  | [p] => p
  | p :: rest => p ++ sep :: join sep rest
  end.

(** Is [pat] a prefix of [s]?  If so, the rest of [s]. *)
Fixpoint strip_prefix (pat s : jsstring) : option jsstring :=
  match pat, s with
  | [], _ => Some s
  | _ :: _, [] => None
  | a :: pat', b :: s' => if a =? b then strip_prefix pat' s' else None
  end.

(** First occurrence of [pat] in [s] ([indexOf]): the text before it and
    the text after it. *)
Fixpoint find_sub (pat s : jsstring) : option (jsstring * jsstring) :=
  match strip_prefix pat s with
  | Some rest => Some ([], rest)
  | None =>
      match s with
      | [] => None
      | c :: s' =>
          match find_sub pat s' with
          | Some (before, after) => Some (c :: before, after)
          | None => None
          end
      end
  end.

(** [GetSubstitution] for a match of a string pattern (no captures, no
    named groups): in the replacement text, [$$] stands for [$], [$&] for
    the matched text, [$`] for the text before the match and [$'] for the
    text after it; every other [$] is literal. *)
Fixpoint get_substitution (matched before after repl : jsstring) : jsstring :=
  match repl with
  | [] => []
  | c :: r =>
      if c =? cu_dollar then
        match r with
        | d :: r' =>
            if d =? cu_dollar then cu_dollar :: get_substitution matched before after r'
            else if d =? cu_amp then matched ++ get_substitution matched before after r'
            else if d =? cu_backtick then before ++ get_substitution matched before after r'
            else if d =? cu_quote then after ++ get_substitution matched before after r'
            else c :: get_substitution matched before after r
        | [] => [c]
        end
      else c :: get_substitution matched before after r
  end.

(** [s.replace(pat, repl)] with a string pattern and a string
    replacement: only the first occurrence is replaced. *)
Definition replace (pat repl s : jsstring) : jsstring :=
  match find_sub pat s with
  | Some (before, after) =>
      before ++ get_substitution pat before after repl ++ after
  | None => s
  end.

End JsString.
Import JsString.

(** ** Configuration constants *)

Definition INPUT_FILE : jsstring := js "ingredients.txt".
Definition OUTPUT_DIR : jsstring := js "output".
Definition REFERENCE_IMAGE : jsstring := js "style_reference.jpg".
Definition DEFAULT_PROMPT_TEMPLATE : jsstring :=
  js "A flat illustration of {ingredient}, centered, clean white background, simple style, no text, no watermark, high quality, for mobile app UI".

(** ** Credential check and token *)

(** The guard at the top of the file exits when
    [!API_KEY || !API_KEY.includes('.')]; [None] is an unset variable. *)
Definition api_key_ok (key : option jsstring) : bool :=
  match key with
  | None => false
  | Some k => nonempty k && includes cu_dot k
  end.

Record Payload := { api_key : jsstring; exp : Z; timestamp : Z }.
Record Header := { alg : jsstring; sign_type : jsstring }.

(** The token returned by the jsonwebtoken library is the serialisation
    of the header, the payload and a signature under the secret.  It is
    kept symbolic: decoding a token gives back [tok_payload]. *)
Record Token := { tok_header : Header; tok_payload : Payload; tok_secret : jsstring }.

(** [jwt.sign(payload, secret, { header })].  The library throws
    (secretOrPrivateKey must have a value) when the secret is undefined
    or the empty string; [None] stands for that exception. *)
Definition jwt_sign (payload : Payload) (secret : option jsstring) (header : Header)
  : option Token :=
  match secret with
  | Some (c :: s) =>
      Some {| tok_header := header; tok_payload := payload; tok_secret := c :: s |}
  | _ => None
  end.

(** [generateToken(apiKey, expSeconds = 3600)].  The function reads the
    clock twice: [now1] is the result of the first [Date.now()] (in the
    [exp] property) and [now2] of the second (in [timestamp]). *)
Definition generateToken (now1 now2 : Z) (apiKey : jsstring) (expSeconds : Z)
  : option Token :=
  let parts := split_on (N.eqb cu_dot) apiKey in
  let id := hd [] parts in
  let secret := nth_error parts 1 in
  let payload := {| api_key := id;
                    exp := (now1 / 1000 + expSeconds)%Z;
                    timestamp := (now2 / 1000)%Z |} in
  let header := {| alg := js "HS256"; sign_type := js "SIGN" |} in
  jwt_sign payload secret header.

Definition default_expSeconds : Z := 3600.

(** ** Input lines and items *)

(** The pure part of [readIngredients]: split on newlines, trim each
    line, keep the lines of positive length. *)
Definition ingredient_lines (data : jsstring) : list jsstring :=
  List.filter nonempty (List.map trim (split_on (N.eqb cu_newline) data)).

(** The separator [/,|，/] of [line.split] in the main loop. *)
Definition is_comma (c : N) : bool :=
  (c =? cu_comma)%N || (c =? cu_fullwidth_comma)%N.

Definition ingredientEn (line : jsstring) : jsstring :=
  trim (hd [] (split_on is_comma line)).

Definition ingredientCn (line : jsstring) : jsstring :=
  let parts := split_on is_comma line in
  if (1 <? length parts)%nat then trim (nth 1 parts []) else [].

Definition displayName (line : jsstring) : jsstring :=
  if nonempty (ingredientCn line)
  then ingredientEn line ++ js " (" ++ ingredientCn line ++ js ")"
  else ingredientEn line.

(** ** Prompt *)

(** Truthiness of [stylePrompt], which is [null] or a string. *)
Definition truthy (v : option jsstring) : bool :=
  match v with
  | Some s => nonempty s
  | None => false
  end.

Definition PLACEHOLDER : jsstring := js "{ingredient}".

(** The [if (stylePrompt) ... else ...] statement of the main loop. *)
Definition build_prompt (stylePrompt : option jsstring) (name : jsstring) : jsstring :=
  if truthy stylePrompt
  then name ++ js ", " ++ default [] stylePrompt
  else replace PLACEHOLDER name DEFAULT_PROMPT_TEMPLATE.

(** ** Values received from the remote services *)

(** JavaScript values as they come out of a parsed response body. *)
Inductive value :=
| VUndefined
| VNull
| VBool (b : bool)
| VNumber (z : Z)
| VString (s : jsstring)
| VArray (items : list value)
| VObject (fields : list (jsstring * value)).

(** Own property [name] of an object literal. *)
Fixpoint own_property (name : jsstring) (fields : list (jsstring * value)) : value :=
  match fields with
  | [] => VUndefined
  | (k, v) :: rest => if decide (k = name) then v else own_property name rest
  end.

(** [v.name] for the names the program reads ([data], [choices],
    [message], [content], [url]); none of them is an index or a member of
    a built-in prototype.  [None] is the TypeError raised on [undefined]
    and [null]. *)
Definition get_member (name : jsstring) (v : value) : option value :=
  match v with
  | VUndefined | VNull => None
  | VObject fields => Some (own_property name fields)
  | _ => Some VUndefined
  end.

(** [v[0]] *)
Definition get_first (v : value) : option value :=
  match v with
  | VUndefined | VNull => None
  | VArray items => Some (hd VUndefined items)
  | VString s => Some (match s with c :: _ => VString [c] | [] => VUndefined end)
  | VObject fields => Some (own_property (js "0") fields)
  | _ => Some VUndefined
  end.

(** Upper case of an ASCII letter; the case folding that an [i] flag
    applies when the pattern is ASCII. *)
Definition ascii_upper (c : N) : N :=
  if ((97 <=? c) && (c <=? 122))%N then (c - 32)%N else c.

Fixpoint strip_prefix_ci (pat s : jsstring) : option jsstring :=
  match pat, s with
  | [], _ => Some s
  | _ :: _, [] => None
  | a :: pat', b :: s' =>
      if (ascii_upper a =? ascii_upper b)%N then strip_prefix_ci pat' s' else None
  end.

(** [content.replace(/^Style description:/i, '')] *)
Definition strip_style_label (content : jsstring) : jsstring :=
  match strip_prefix_ci (js "Style description:") content with
  | Some rest => rest
  | None => content
  end.

(** The statements of [analyzeImageStyle] after the request:
    [response.data.choices[0].message.content], then the label is
    removed and the text trimmed.  [None] is a TypeError: a missing
    level, or a [content] that is no string and so has no [replace]. *)
Definition style_of_reply (data : value) : option jsstring :=
  choices ← get_member (js "choices") data;
  first ← get_first choices;
  message ← get_member (js "message") first;
  content ← get_member (js "content") message;
  match content with
  | VString s => Some (trim (strip_style_label s))
  | _ => None
  end.

(** [response.data.data[0].url] of the generation reply. *)
Definition url_of_reply (data : value) : option value :=
  results ← get_member (js "data") data;
  first ← get_first results;
  get_member (js "url") first.

(** ** The outside world *)

(** An awaited axios call either rejects (network failure or a status
    outside 2xx; in the second case the error carries the response body)
    or resolves with the parsed body. *)
Inductive http_reply :=
| Rejected (response : option value)
| Resolved (data : value).

(** What [downloadImage] can observe: the GET request rejects without a
    response, the write stream reports an error to the listener installed
    on it (some bytes may have been written), or the stream finishes.  A
    GET answered with a status outside 2xx, whose error carries the
    response stream instead of a parsed body, and an error raised on a
    stream while no listener is installed on it are outside this model. *)
Inductive download_result :=
| GetFailed
| WriteFailed (written : list Byte.byte)
| Finished (content : list Byte.byte).

Record world := {
  API_KEY : option jsstring;      (* process.env.ZHIPU_API_KEY *)
  date_now_1 : Z;                 (* first Date.now() of generateToken *)
  date_now_2 : Z;                 (* second Date.now() of generateToken *)
  output_dir_exists : bool;       (* fs.existsSync(OUTPUT_DIR) *)
  mkdir_succeeds : bool;          (* fs.mkdirSync(OUTPUT_DIR) does not throw *)
  input_text : option jsstring;   (* fs.readFileSync(INPUT_FILE, 'utf8'); None: it throws *)
  reference_exists : bool;        (* fs.existsSync(REFERENCE_IMAGE) *)
  reference_base64 : option jsstring;
    (* fs.readFileSync(REFERENCE_IMAGE).toString('base64'); None: the read throws *)
  path_join : jsstring -> jsstring -> jsstring;   (* path.join of the platform *)
  vision_endpoint : jsstring -> Token -> http_reply;
  generation_endpoint : nat -> jsstring -> Token -> http_reply;
    (* reply to the generation request of the item at the given index *)
  image_download : nat -> value -> download_result
    (* outcome of downloading for the item at the given index *)
}.

(** ** Effects *)

Inductive message :=
| MsgBadApiKey                      (* the diagnostic of the credential guard *)
| MsgCannotReadInput
| MsgFound (count : nat) (lines : list jsstring)
| MsgAnalyzing
| MsgStyleExtracted (style : jsstring)
| MsgAnalysisFailed
| MsgCannotReadReference
| MsgDefaultTemplate
| MsgGenerating (position total : nat) (name : jsstring)
| MsgDownloading (filename : jsstring)
| MsgDone
| MsgGenerationFailed
| MsgApiResponse (data : value).

Inductive event :=
| EvConsole (m : message)                           (* console.log, warn, error *)
| EvExit (code : Z)                                 (* process.exit *)
| EvExistsSync (path : jsstring)
| EvMkdirSync (path : jsstring)
| EvReadFileSync (path : jsstring)
| EvGenerateToken (apiKey : option jsstring)        (* call of generateToken *)
| EvPostVision (image : jsstring) (token : Token)   (* axios.post, chat/completions *)
| EvBuildPrompt (prompt : jsstring)                 (* the prompt of an item is assigned *)
| EvPostGeneration (prompt : jsstring) (token : Token)  (* axios.post, images/generations *)
| EvCreateWriteStream (path : jsstring)
| EvGetImage (url : value).                         (* axios GET of downloadImage *)

Inductive error :=
| FsError
| JwtError
| TypeError
| AxiosError (response : option value)
| StreamError.

Record state := {
  trace : list event;                       (* oldest event first *)
  files : gmap jsstring (list Byte.byte)    (* files below OUTPUT_DIR *)
}.

Definition initial_state : state := {| trace := []; files := ∅ |}.

(** A computation ends normally, by an exception, or by [process.exit]. *)
Inductive result (A : Type) :=
| Normal (a : A)
| Thrown (e : error)
| Exited (code : Z).
Arguments Normal {A} a.
Arguments Thrown {A} e.
Arguments Exited {A} code.

Definition M (A : Type) : Type := state -> result A * state.

Definition ret {A} (a : A) : M A := fun s => (Normal a, s).

Definition bind {A B} (m : M A) (k : A -> M B) : M B :=
  fun s =>
    match m s with
    | (Normal a, s') => k a s'
    | (Thrown e, s') => (Thrown e, s')
    | (Exited c, s') => (Exited c, s')
    end.

Notation "x <- m ;; k" := (bind m (fun x => k))
  (at level 100, m at next level, right associativity).
Notation "m ;; k" := (bind m (fun _ => k))
  (at level 100, right associativity).

Definition throw {A} (e : error) : M A := fun s => (Thrown e, s).

Definition emit (e : event) : M unit :=
  fun s => (Normal tt, {| trace := trace s ++ [e]; files := files s |}).

Definition console (m : message) : M unit := emit (EvConsole m).

Definition process_exit {A} (code : Z) : M A :=
  fun s => (Exited code, {| trace := trace s ++ [EvExit code]; files := files s |}).

(** [try { body } catch (error) { handler }]: [process.exit] is no
    exception and is not caught. *)
Definition try_catch {A} (body : M A) (handler : error -> M A) : M A :=
  fun s =>
    match body s with
    | (Thrown e, s') => handler e s'
    | r => r
    end.

(** A pure computation that may raise a TypeError. *)
Definition or_type_error {A} (o : option A) : M A :=
  match o with
  | Some a => ret a
  | None => throw TypeError
  end.

Definition write_file (path : jsstring) (content : list Byte.byte) : M unit :=
  fun s => (Normal tt, {| trace := trace s; files := <[path := content]> (files s) |}).

(** [for (const [index, x] of xs.entries()) body], from index [i] on. *)
Fixpoint for_entries {A} (body : nat -> A -> M unit) (i : nat) (xs : list A) : M unit :=
  match xs with
  | [] => ret tt
  | x :: xs' => body i x ;; for_entries body (S i) xs'
  end.

(** ** The functions of the program *)

Section Program.

Variable w : world.

(** [readIngredients()] *)
Definition readIngredients : M (list jsstring) :=
  try_catch
    (emit (EvReadFileSync INPUT_FILE) ;;
     match input_text w with
     | Some data => ret (ingredient_lines data)
     | None => throw FsError
     end)
    (fun _ => console MsgCannotReadInput ;; process_exit 1).

(** [getReferenceImageBase64()]; the result is [null] or a string. *)
Definition getReferenceImageBase64 : M (option jsstring) :=
  emit (EvExistsSync REFERENCE_IMAGE) ;;
  if reference_exists w then
    try_catch
      (emit (EvReadFileSync REFERENCE_IMAGE) ;;
       match reference_base64 w with
       | Some text => ret (Some text)
       | None => throw FsError
       end)
      (fun _ => console MsgCannotReadReference ;; ret None)
  else ret None.

(** [analyzeImageStyle(base64Image, token)]; the result is [null] or a
    string. *)
Definition analyzeImageStyle (base64Image : jsstring) (token : Token)
  : M (option jsstring) :=
  console MsgAnalyzing ;;
  try_catch
    (emit (EvPostVision base64Image token) ;;
     match vision_endpoint w base64Image token with
     | Rejected response => throw (AxiosError response)
     | Resolved data =>
         styleDescription <- or_type_error (style_of_reply data) ;;
         console (MsgStyleExtracted styleDescription) ;;
         ret (Some styleDescription)
     end)
    (fun _ => console MsgAnalysisFailed ;; ret None).

(** [downloadImage(url, filepath)]: the write stream is created, and
    with it the file, before the request is sent. *)
Definition downloadImage (index : nat) (url : value) (filepath : jsstring) : M unit :=
  emit (EvCreateWriteStream filepath) ;;
  write_file filepath [] ;;
  emit (EvGetImage url) ;;
  match image_download w index url with
  | GetFailed => throw (AxiosError None)
  | WriteFailed written => write_file filepath written ;; throw StreamError
  | Finished content => write_file filepath content
  end.

Definition output_filename (name : jsstring) : jsstring :=
  path_join w OUTPUT_DIR (name ++ js ".png").

(** The body of the loop of [main] for the line at [index]. *)
Definition process_item (token : Token) (stylePrompt : option jsstring)
    (total : nat) (index : nat) (line : jsstring) : M unit :=
  let name := ingredientEn line in
  console (MsgGenerating (index + 1) total (displayName line)) ;;
  let prompt := build_prompt stylePrompt name in
  emit (EvBuildPrompt prompt) ;;
  try_catch
    (emit (EvPostGeneration prompt token) ;;
     match generation_endpoint w index prompt token with
     | Rejected response => throw (AxiosError response)
     | Resolved data =>
         imageUrl <- or_type_error (url_of_reply data) ;;
         let filename := output_filename name in
         console (MsgDownloading filename) ;;
         downloadImage index imageUrl filename ;;
         console MsgDone
     end)
    (fun error =>
       console MsgGenerationFailed ;;
       match error with
       | AxiosError (Some data) => console (MsgApiResponse data)
       | _ => ret tt
       end).

(** [main()] *)
Definition main : M unit :=
  emit (EvExistsSync OUTPUT_DIR) ;;
  (if output_dir_exists w then ret tt
   else emit (EvMkdirSync OUTPUT_DIR) ;;
        if mkdir_succeeds w then ret tt else throw FsError) ;;
  ingredients <- readIngredients ;;
  console (MsgFound (length ingredients) ingredients) ;;
  emit (EvGenerateToken (API_KEY w)) ;;
  token <- match API_KEY w with
           | Some key =>
               match generateToken (date_now_1 w) (date_now_2 w) key default_expSeconds with
               | Some token => ret token
               | None => throw JwtError
               end
           | None => throw TypeError
           end ;;
  base64Image <- getReferenceImageBase64 ;;
  stylePrompt <- (if truthy base64Image
                  then analyzeImageStyle (default [] base64Image) token
                  else ret None) ;;
  (if truthy stylePrompt then ret tt else console MsgDefaultTemplate) ;;
  for_entries (process_item token stylePrompt (length ingredients)) 0 ingredients.

(** The whole script: the credential guard, then [main()]. *)
Definition program : M unit :=
  if api_key_ok (API_KEY w) then main
  else console MsgBadApiKey ;; process_exit 1.

Definition run : result unit * state := program initial_state.

End Program.

(** * Vocabulary of the properties *)

(** ** Strings and lines *)

(** No code unit of [s] satisfies [p]. *)
Definition free_of (p : N -> bool) (s : jsstring) : bool :=
  forallb (fun c => negb (p c)) s.

(** A line is blank when nothing is left of it after trimming. *)
Definition blank (line : jsstring) : bool := negb (nonempty (trim line)).

(** The default template with the placeholder token replaced by [name],
    in the words of the specification: the text of the template before
    and after the token, with the name put between them as it is. *)
Definition template_with (name : jsstring) : jsstring :=
  match find_sub PLACEHOLDER DEFAULT_PROMPT_TEMPLATE with
  | Some (before, after) => before ++ name ++ after
  | None => DEFAULT_PROMPT_TEMPLATE
  end.


(** ** Runs *)

(** The state [s] after the events [t]. *)
Definition after (s : state) (t : list event) : state :=
  {| trace := trace s ++ t; files := files s |}.

Section RunVocabulary.

Variable w : world.

(** *** Reference picture and style analysis *)

(** The result of [getReferenceImageBase64] and the events it causes. *)
Definition reference_result : option jsstring :=
  if reference_exists w then reference_base64 w else None.

Definition reference_trace : list event :=
  EvExistsSync REFERENCE_IMAGE ::
  (if reference_exists w then
     EvReadFileSync REFERENCE_IMAGE ::
     match reference_base64 w with
     | Some _ => []
     | None => [EvConsole MsgCannotReadReference]
     end
   else []).

(** The result of [analyzeImageStyle] and the events it causes. *)
Definition analysis_result (img : jsstring) (tok : Token) : option jsstring :=
  match vision_endpoint w img tok with
  | Resolved data => style_of_reply data
  | Rejected _ => None
  end.

Definition analysis_trace (img : jsstring) (tok : Token) : list event :=
  [EvConsole MsgAnalyzing; EvPostVision img tok] ++
  match analysis_result img tok with
  | Some style => [EvConsole (MsgStyleExtracted style)]
  | None => [EvConsole MsgAnalysisFailed]
  end.

(** The value of [stylePrompt] when the loop starts. *)
Definition style_prompt (tok : Token) : option jsstring :=
  match reference_result with
  | Some img => if nonempty img then analysis_result img tok else None
  | None => None
  end.

Definition style_trace (tok : Token) : list event :=
  reference_trace ++
  match reference_result with
  | Some img => if nonempty img then analysis_trace img tok else []
  | None => []
  end ++
  (if truthy (style_prompt tok) then [] else [EvConsole MsgDefaultTemplate]).


(** *** One item *)

Section Item.

Variables (tok : Token) (style : option jsstring) (total : nat).

Definition item_prompt (line : jsstring) : jsstring :=
  build_prompt style (ingredientEn line).

Definition item_filename (line : jsstring) : jsstring :=
  output_filename w (ingredientEn line).

(** The URL handed to [downloadImage], when the generation call of the
    item resolves and [response.data.data[0].url] can be evaluated;
    [None] when the call is rejected or the expression throws. *)
Definition item_url (index : nat) (line : jsstring) : option value :=
  match generation_endpoint w index (item_prompt line) tok with
  | Resolved data => url_of_reply data
  | Rejected _ => None
  end.

(** What the handler of the item prints when the generation call fails
    or its reply has not the expected shape. *)
Definition generation_failure_log (index : nat) (line : jsstring) : list event :=
  EvConsole MsgGenerationFailed ::
  match generation_endpoint w index (item_prompt line) tok with
  | Rejected (Some data) => [EvConsole (MsgApiResponse data)]
  | _ => []
  end.

Definition item_trace (index : nat) (line : jsstring) : list event :=
  [EvConsole (MsgGenerating (index + 1) total (displayName line));
   EvBuildPrompt (item_prompt line);
   EvPostGeneration (item_prompt line) tok] ++
  match item_url index line with
  | None => generation_failure_log index line
  | Some url =>
      [EvConsole (MsgDownloading (item_filename line));
       EvCreateWriteStream (item_filename line);
       EvGetImage url] ++
      match image_download w index url with
      | Finished _ => [EvConsole MsgDone]
      | _ => [EvConsole MsgGenerationFailed]
      end
  end.

Definition item_files (index : nat) (line : jsstring)
    (fs : gmap jsstring (list Byte.byte)) : gmap jsstring (list Byte.byte) :=
  match item_url index line with
  | None => fs
  | Some url =>
      <[item_filename line :=
          match image_download w index url with
          | GetFailed => []
          | WriteFailed written => written
          | Finished content => content
          end]> fs
  end.

(** *** The loop *)

Fixpoint loop_trace (index : nat) (lines : list jsstring) : list event :=
  match lines with
  | [] => []
  | line :: rest => item_trace index line ++ loop_trace (S index) rest
  end.

Fixpoint loop_files (index : nat) (lines : list jsstring)
    (fs : gmap jsstring (list Byte.byte)) : gmap jsstring (list Byte.byte) :=
  match lines with
  | [] => fs
  | line :: rest => loop_files (S index) rest (item_files index line fs)
  end.

End Item.

(** *** The whole run *)

(** The run gets as far as the loop: the key passes the guard, the
    output directory is there or can be made, the input can be read and
    the token is minted. *)
Record started (key data : jsstring) (tok : Token) : Prop := {
  started_key : API_KEY w = Some key;
  started_guard : api_key_ok (Some key) = true;
  started_dir : output_dir_exists w || mkdir_succeeds w = true;
  started_input : input_text w = Some data;
  started_token :
    generateToken (date_now_1 w) (date_now_2 w) key default_expSeconds = Some tok
}.

Definition startup_trace (key data : jsstring) : list event :=
  EvExistsSync OUTPUT_DIR ::
  (if output_dir_exists w then [] else [EvMkdirSync OUTPUT_DIR]) ++
  [EvReadFileSync INPUT_FILE;
   EvConsole (MsgFound (length (ingredient_lines data)) (ingredient_lines data));
   EvGenerateToken (Some key)].

End RunVocabulary.

(** ** Observations on a trace *)

(** The prompts built, oldest first. *)
Definition prompts (t : list event) : list jsstring :=
  flat_map (fun e => match e with EvBuildPrompt p => [p] | _ => [] end) t.

(** The prompts sent to the generation endpoint, oldest first. *)
Definition generation_requests (t : list event) : list jsstring :=
  flat_map (fun e => match e with EvPostGeneration p _ => [p] | _ => [] end) t.

(** Requests sent over the network. *)
Definition is_network_event (e : event) : bool :=
  match e with
  | EvPostVision _ _ | EvPostGeneration _ _ | EvGetImage _ => true
  | _ => false
  end.

Inductive component :=
| Signer | Loader | StyleExtractor | PromptBuilder | GenerationClient | Downloader.

(** The component that an event marks the start of: [readIngredients]
    reads the input file, [generateToken] is called, [analyzeImageStyle]
    posts to the vision endpoint, the prompt is assigned, the generation
    request is posted, [downloadImage] creates its write stream. *)
Definition component_of (e : event) : list component :=
  match e with
  | EvReadFileSync path => if decide (path = INPUT_FILE) then [Loader] else []
  | EvGenerateToken _ => [Signer]
  | EvPostVision _ _ => [StyleExtractor]
  | EvBuildPrompt _ => [PromptBuilder]
  | EvPostGeneration _ _ => [GenerationClient]
  | EvCreateWriteStream _ => [Downloader]
  | _ => []
  end.

Definition components (t : list event) : list component :=
  flat_map component_of t.



(** ** Worlds used as examples *)

Module Examples.

Definition posix_join (dir file : jsstring) : jsstring := dir ++ js "/" ++ file.

Definition generation_ok (url : string) : value :=
  VObject [(js "data", VArray [VObject [(js "url", VString (js url))]])].

Definition vision_ok (content : string) : value :=
  VObject [(js "choices",
            VArray [VObject [(js "message",
                              VObject [(js "content", VString (js content))])]])].

(** A run in which everything works: three lines, one of them blank. *)
Definition w_ok : world := {|
  API_KEY := Some (js "id.secret");
  date_now_1 := 1700000000000;
  date_now_2 := 1700000000000;
  output_dir_exists := false;
  mkdir_succeeds := true;
  input_text := Some (js "Apple," ++ [0x82F9; 0x679C; 10; 32; 10]%N ++ js "Banana");
  reference_exists := true;
  reference_base64 := Some (js "QUJD");
  path_join := posix_join;
  vision_endpoint := fun _ _ =>
    Resolved (vision_ok "Style description: watercolor, pastel tones");
  generation_endpoint := fun _ _ _ => Resolved (generation_ok "https://img.example/1.png");
  image_download := fun _ _ => Finished [Byte.x89; Byte.x50]
|}.

Definition tok_ok : Token := {|
  tok_header := {| alg := js "HS256"; sign_type := js "SIGN" |};
  tok_payload := {| api_key := js "id"; exp := 1700003600; timestamp := 1700000000 |};
  tok_secret := js "secret"
|}.


(** A key without separator. *)
Definition w_bad_key : world := {|
  API_KEY := Some (js "idsecret");
  date_now_1 := date_now_1 w_ok; date_now_2 := date_now_2 w_ok;
  output_dir_exists := false; mkdir_succeeds := true;
  input_text := input_text w_ok;
  reference_exists := true; reference_base64 := reference_base64 w_ok;
  path_join := posix_join;
  vision_endpoint := vision_endpoint w_ok;
  generation_endpoint := generation_endpoint w_ok;
  image_download := image_download w_ok
|}.




End Examples.

(** ** Further vocabulary *)

(** The tokens carried by the requests to the two endpoints, oldest
    first. *)
Definition request_tokens (t : list event) : list Token :=
  flat_map (fun e => match e with
                     | EvPostVision _ token | EvPostGeneration _ token => [token]
                     | _ => []
                     end) t.

(** The calls of [generateToken]. *)
Definition token_mints (t : list event) : list (option jsstring) :=
  flat_map (fun e => match e with EvGenerateToken key => [key] | _ => [] end) t.

(** The images sent to the vision endpoint. *)
Definition vision_requests (t : list event) : list jsstring :=
  flat_map (fun e => match e with EvPostVision img _ => [img] | _ => [] end) t.

(** The write streams created. *)
Definition streams_created (t : list event) : list jsstring :=
  flat_map (fun e => match e with EvCreateWriteStream path => [path] | _ => [] end) t.

(** A reply of the vision endpoint of the shape the program reads, with
    the given text as [choices[0].message.content]. *)
Definition vision_reply (content : jsstring) : value :=
  VObject [(js "choices",
            VArray [VObject [(js "message",
                              VObject [(js "content", VString content)])]])].

Definition cu_return : N := 13.     (* \r *)

(** A text whose lines are separated by carriage return and newline. *)
Fixpoint join_crlf (parts : list jsstring) : jsstring :=
  match parts with
  | [] => []
  | [p] => p
  | p :: rest => p ++ cu_return :: cu_newline :: join_crlf rest
  end.



(** The files read. *)
Definition files_read (t : list event) : list jsstring :=
  flat_map (fun e => match e with EvReadFileSync path => [path] | _ => [] end) t.


(** ** More example worlds *)

Module MoreExamples.

(** The input file cannot be read. *)
Definition w_unreadable_input : world := {|
  API_KEY := API_KEY Examples.w_ok;
  date_now_1 := date_now_1 Examples.w_ok; date_now_2 := date_now_2 Examples.w_ok;
  output_dir_exists := false; mkdir_succeeds := true;
  input_text := None;
  reference_exists := true; reference_base64 := reference_base64 Examples.w_ok;
  path_join := Examples.posix_join;
  vision_endpoint := vision_endpoint Examples.w_ok;
  generation_endpoint := generation_endpoint Examples.w_ok;
  image_download := image_download Examples.w_ok
|}.


(** The input file holds blank lines only. *)
Definition w_blank_input : world := {|
  API_KEY := API_KEY Examples.w_ok;
  date_now_1 := date_now_1 Examples.w_ok; date_now_2 := date_now_2 Examples.w_ok;
  output_dir_exists := true; mkdir_succeeds := false;
  input_text := Some [32; 10; 13; 10; 9]%N;
  reference_exists := false; reference_base64 := None;
  path_join := Examples.posix_join;
  vision_endpoint := vision_endpoint Examples.w_ok;
  generation_endpoint := generation_endpoint Examples.w_ok;
  image_download := image_download Examples.w_ok
|}.

(** The output directory is missing and cannot be made. *)
Definition w_no_output_dir : world := {|
  API_KEY := API_KEY Examples.w_ok;
  date_now_1 := date_now_1 Examples.w_ok; date_now_2 := date_now_2 Examples.w_ok;
  output_dir_exists := false; mkdir_succeeds := false;
  input_text := input_text Examples.w_ok;
  reference_exists := false; reference_base64 := None;
  path_join := Examples.posix_join;
  vision_endpoint := vision_endpoint Examples.w_ok;
  generation_endpoint := generation_endpoint Examples.w_ok;
  image_download := image_download Examples.w_ok
|}.
End MoreExamples.

(** * Properties *)

(** ** Strings *)

Lemma split_on_not_nil p s : split_on p s <> [].
Proof.
  destruct s as [|c s]; simpl; [discriminate|].
  destruct (p c); [discriminate|].
  destruct (split_on p s); discriminate.
Qed.

Lemma split_on_free p s : free_of p s = true -> split_on p s = [s].
Proof.
  induction s as [|c s IH]; simpl; [reflexivity|].
  intros H. apply andb_prop in H as [Hc Hs].
  apply negb_true_iff in Hc. rewrite Hc, (IH Hs). reflexivity.
Qed.

Lemma split_on_app p a c rest :
  free_of p a = true -> p c = true ->
  split_on p (a ++ c :: rest) = a :: split_on p rest.
Proof.
  intros Ha Hc. induction a as [|x a IH]; simpl.
  - rewrite Hc. reflexivity.
  - simpl in Ha. apply andb_prop in Ha as [Hx Ha].
    apply negb_true_iff in Hx. rewrite Hx, (IH Ha). reflexivity.
Qed.

Lemma split_on_join p sep parts :
  p sep = true -> parts <> [] ->
  Forall (fun l => free_of p l = true) parts ->
  split_on p (join sep parts) = parts.
Proof.
  intros Hsep Hne Hall. induction Hall as [|l parts Hl Hall IH]; [congruence|].
  destruct parts as [|l' parts'].
  - simpl. apply split_on_free, Hl.
  - change (join sep (l :: l' :: parts')) with (l ++ sep :: join sep (l' :: parts')).
    rewrite split_on_app by assumption. rewrite IH by discriminate. reflexivity.
Qed.

(** A text either holds no code unit satisfying [p], or can be cut at the
    first one. *)
Lemma cut_at_first p s :
  free_of p s = true
  \/ exists a c rest, s = a ++ c :: rest /\ free_of p a = true /\ p c = true.
Proof.
  induction s as [|x s IH]; [left; reflexivity|].
  destruct (p x) eqn:E.
  - right. exists [], x, s. repeat split. exact E.
  - destruct IH as [IH | (a & c & rest & -> & Ha & Hc)].
    + left. simpl. rewrite E, IH. reflexivity.
    + right. exists (x :: a), c, rest. repeat split; [|exact Hc].
      simpl. rewrite E, Ha. reflexivity.
Qed.

Lemma filter_free p s : free_of p s = true -> List.filter p s = [].
Proof.
  induction s as [|x s IH]; [reflexivity|].
  simpl. intros H. apply andb_prop in H as [Hx Hs].
  apply negb_true_iff in Hx. rewrite Hx. apply IH, Hs.
Qed.

Lemma filter_cut p a c rest :
  free_of p a = true -> p c = true ->
  List.filter p (a ++ c :: rest) = c :: List.filter p rest.
Proof.
  intros Ha Hc. rewrite List.filter_app, (filter_free p a Ha). simpl.
  rewrite Hc. reflexivity.
Qed.

Lemma trimStart_head s :
  match trimStart s with
  | [] => True
  | c :: _ => is_trim_space c = false
  end.
Proof.
  induction s as [|c s IH]; simpl; [exact I|].
  destruct (is_trim_space c) eqn:E; [exact IH | exact E].
Qed.

Lemma trimStart_keeps c s : is_trim_space c = false -> trimStart (c :: s) = c :: s.
Proof. intros H. simpl. rewrite H. reflexivity. Qed.

Lemma trimStart_idem s : trimStart (trimStart s) = trimStart s.
Proof.
  pose proof (trimStart_head s) as H. destruct (trimStart s) as [|c t]; [reflexivity|].
  apply trimStart_keeps, H.
Qed.

(** Removing spaces at the front of [s ++ [c]], when [c] is no space,
    keeps the last code unit. *)
Lemma trimStart_snoc s c :
  is_trim_space c = false -> trimStart (s ++ [c]) = trimStart s ++ [c].
Proof.
  intros H. induction s as [|x s IH]; simpl.
  - rewrite H. reflexivity.
  - destruct (is_trim_space x); [exact IH | reflexivity].
Qed.

Lemma trimEnd_snoc s c : is_trim_space c = false -> trimEnd (s ++ [c]) = s ++ [c].
Proof.
  intros H. unfold trimEnd. rewrite rev_app_distr. simpl. rewrite H.
  simpl. rewrite rev_involutive. reflexivity.
Qed.

Lemma trimEnd_idem s : trimEnd (trimEnd s) = trimEnd s.
Proof.
  unfold trimEnd. rewrite rev_involutive, trimStart_idem. reflexivity.
Qed.

Lemma trimEnd_cons_keeps c s :
  is_trim_space c = false -> exists t, trimEnd (c :: s) = c :: t.
Proof.
  intros H. unfold trimEnd.
  induction s as [|x s IH] using rev_ind.
  - simpl. rewrite H. exists []. reflexivity.
  - rewrite app_comm_cons, rev_app_distr. simpl.
    destruct (is_trim_space x) eqn:E.
    + exact IH.
    + exists (s ++ [x]). simpl. rewrite rev_app_distr, rev_involutive. reflexivity.
Qed.

Lemma trimStart_trimEnd_comm s : trimStart (trimEnd s) = trimEnd (trimStart s).
Proof.
  induction s as [|c s IH]; [reflexivity|].
  destruct (is_trim_space c) eqn:E.
  - assert (Hs : trimStart (c :: s) = trimStart s) by (simpl; rewrite E; reflexivity).
    rewrite Hs, <- IH. clear IH Hs.
    unfold trimEnd. simpl rev at 2.
    induction s as [|x s IH] using rev_ind.
    + simpl. rewrite E. reflexivity.
    + rewrite rev_app_distr. simpl.
      destruct (is_trim_space x) eqn:Ex.
      * exact IH.
      * simpl. rewrite rev_involutive.
        change (c :: s ++ [x]) with ((c :: s) ++ [x]).
        rewrite !trimStart_snoc by assumption.
        rewrite rev_app_distr, rev_involutive. simpl. rewrite E. reflexivity.
  - rewrite (trimStart_keeps c s E).
    destruct (trimEnd_cons_keeps c s E) as [t Ht]. rewrite Ht.
    apply trimStart_keeps, E.
Qed.

Lemma trim_idem s : trim (trim s) = trim s.
Proof.
  unfold trim.
  rewrite (trimStart_trimEnd_comm (trimStart s)).
  rewrite trimStart_idem, trimEnd_idem. reflexivity.
Qed.

Lemma trim_cons_keeps c s :
  is_trim_space c = false -> exists t, trim (c :: s) = c :: t.
Proof.
  intros H. unfold trim. rewrite (trimStart_keeps c s H).
  apply trimEnd_cons_keeps, H.
Qed.

Lemma trim_head s :
  match trim s with
  | [] => True
  | c :: _ => is_trim_space c = false
  end.
Proof.
  unfold trim. rewrite <- trimStart_trimEnd_comm. apply trimStart_head.
Qed.

Lemma get_substitution_plain matched before after repl :
  free_of (N.eqb cu_dollar) repl = true ->
  get_substitution matched before after repl = repl.
Proof.
  induction repl as [|c r IH]; [reflexivity|].
  intros H. change (negb (cu_dollar =? c)%N && free_of (N.eqb cu_dollar) r = true) in H.
  apply andb_prop in H as [Hc Hr].
  apply negb_true_iff in Hc. rewrite N.eqb_sym in Hc.
  cbn [get_substitution]. rewrite Hc, (IH Hr). reflexivity.
Qed.

(** ** Prompt builder *)


Lemma replace_placeholder_plain (name : jsstring) :
  free_of (N.eqb cu_dollar) name = true ->
  replace PLACEHOLDER name DEFAULT_PROMPT_TEMPLATE = template_with name.
Proof.
  intros H. unfold replace, template_with.
  destruct (find_sub PLACEHOLDER DEFAULT_PROMPT_TEMPLATE) as [[before after]|];
    [|reflexivity].
  rewrite get_substitution_plain by exact H. reflexivity.
Qed.

Lemma build_prompt_default_plain (name : jsstring) :
  free_of (N.eqb cu_dollar) name = true ->
  build_prompt None name = template_with name.
Proof. apply replace_placeholder_plain. Qed.

Example prompt_apple_styled :
  build_prompt (Some (js "watercolor, pastel tones")) (js "Apple")
  = js "Apple, watercolor, pastel tones".
Proof. reflexivity. Qed.

Example prompt_apple_default :
  build_prompt None (js "Apple")
  = js "A flat illustration of Apple, centered, clean white background, simple style, no text, no watermark, high quality, for mobile app UI".
Proof. reflexivity. Qed.

(** A doubled dollar sign in a name comes out as a single one. *)
Example prompt_double_dollar :
  build_prompt None (js "a$$b") = template_with (js "a$b").
Proof. reflexivity. Qed.

(** C1.  The prompt builder is claimed to put the primary name in the
    place of the placeholder whenever no style descriptor is available.
    [String.prototype.replace] reads [$&], [$$], [$`] and [$'] in its
    second argument as patterns, so a name holding one of them is not
    inserted as it is: for the name [$&] and no style descriptor the
    prompt is the template itself, placeholder included, and differs from
    the template with the name substituted. *)
Theorem C1_prompt_for_name_with_dollar_pattern :
  build_prompt None (js "$&") = DEFAULT_PROMPT_TEMPLATE
  /\ build_prompt None (js "$&") <> template_with (js "$&").
Proof. split; [reflexivity | discriminate]. Qed.

(** ** Credential signer *)

Lemma generateToken_payload now1 now2 apiKey expSeconds tok :
  generateToken now1 now2 apiKey expSeconds = Some tok ->
  exp (tok_payload tok) = (now1 / 1000 + expSeconds)%Z
  /\ timestamp (tok_payload tok) = (now2 / 1000)%Z.
Proof.
  unfold generateToken, jwt_sign.
  destruct (nth_error (split_on (N.eqb cu_dot) apiKey) 1) as [[|c s]|];
    try discriminate.
  intros [= <-]. split; reflexivity.
Qed.

(** When both clock readings fall in the same second, the expiry is the
    issue time plus the time to live. *)
Lemma generateToken_same_second now1 now2 apiKey expSeconds tok :
  (now1 / 1000 = now2 / 1000)%Z ->
  generateToken now1 now2 apiKey expSeconds = Some tok ->
  exp (tok_payload tok) = (timestamp (tok_payload tok) + expSeconds)%Z.
Proof.
  intros Hsec Htok. apply generateToken_payload in Htok as [-> ->].
  rewrite Hsec. reflexivity.
Qed.

(** C2.  The expiry is claimed to equal the issue time plus the time to
    live.  [generateToken] calls [Date.now()] once for [exp] and once
    more for [timestamp]; when the clock passes a full second between
    the two calls (1999 ms, then 2000 ms) the token for [id.secret] with
    the default 3600 s has [exp] 3601 and [timestamp] 2. *)
Theorem C2_expiry_when_clock_ticks_between_reads :
  exists tok,
    generateToken 1999 2000 (js "id.secret") default_expSeconds = Some tok
    /\ exp (tok_payload tok) = 3601%Z
    /\ timestamp (tok_payload tok) = 2%Z
    /\ exp (tok_payload tok) <> (timestamp (tok_payload tok) + default_expSeconds)%Z.
Proof.
  eexists. split; [reflexivity|]. cbn. repeat split. discriminate.
Qed.

(** A key with at least two dots is [a.b.rest] with no dot in [a] and [b]. *)
Lemma two_dots_shape (key : jsstring) :
  (2 <= length (List.filter (N.eqb cu_dot) key))%nat ->
  exists a b rest,
    key = a ++ cu_dot :: b ++ cu_dot :: rest
    /\ free_of (N.eqb cu_dot) a = true
    /\ free_of (N.eqb cu_dot) b = true.
Proof.
  intros H.
  destruct (cut_at_first (N.eqb cu_dot) key) as [Hf | (a & c & tail & -> & Ha & Hc)].
  { rewrite (filter_free _ _ Hf) in H. simpl in H. lia. }
  rewrite (filter_cut _ _ _ _ Ha Hc) in H. simpl in H.
  apply N.eqb_eq in Hc. subst c.
  destruct (cut_at_first (N.eqb cu_dot) tail) as [Hf | (b & c & rest & -> & Hb & Hc)].
  { rewrite (filter_free _ _ Hf) in H. simpl in H. lia. }
  apply N.eqb_eq in Hc. subst c.
  exists a, b, rest. repeat split; assumption.
Qed.

(** C10.  A key with two or more dots is [a.b.rest] with no dot in [a]
    and [b].  It passes the startup guard; the signer hands [a] over as
    the identifier and [b], the text between the first and the second
    dot, as the secret, and nothing after the second dot has any
    influence on the token.  Keys with an empty identifier or an empty
    secret pass the guard too. *)
Theorem C10_key_with_extra_dots (key : jsstring) (now1 now2 expSeconds : Z) :
  (2 <= length (List.filter (N.eqb cu_dot) key))%nat ->
  (exists a b rest,
     key = a ++ cu_dot :: b ++ cu_dot :: rest
     /\ free_of (N.eqb cu_dot) a = true
     /\ free_of (N.eqb cu_dot) b = true
     /\ api_key_ok (Some key) = true
     /\ generateToken now1 now2 key expSeconds
        = jwt_sign {| api_key := a;
                      exp := (now1 / 1000 + expSeconds)%Z;
                      timestamp := (now2 / 1000)%Z |}
                   (Some b)
                   {| alg := js "HS256"; sign_type := js "SIGN" |}
     /\ (forall tok, generateToken now1 now2 key expSeconds = Some tok ->
                     tok_secret tok = b /\ api_key (tok_payload tok) = a)
     /\ (forall rest',
           generateToken now1 now2 (a ++ cu_dot :: b ++ cu_dot :: rest') expSeconds
           = generateToken now1 now2 key expSeconds))
  /\ api_key_ok (Some (js ".")) = true
  /\ api_key_ok (Some (js ".secret")) = true
  /\ api_key_ok (Some (js "id.")) = true.
Proof.
  intros Hdots. split; [|repeat split].
  destruct (two_dots_shape key Hdots) as (a & b & rest & -> & Ha & Hb).
  exists a, b, rest.
  assert (Hgen : forall r,
            generateToken now1 now2 (a ++ cu_dot :: b ++ cu_dot :: r) expSeconds
            = jwt_sign {| api_key := a;
                          exp := (now1 / 1000 + expSeconds)%Z;
                          timestamp := (now2 / 1000)%Z |}
                       (Some b)
                       {| alg := js "HS256"; sign_type := js "SIGN" |}).
  { intros r. unfold generateToken.
    rewrite split_on_app by (assumption || reflexivity).
    rewrite split_on_app by (assumption || reflexivity). reflexivity. }
  split; [reflexivity|]. split; [exact Ha|]. split; [exact Hb|].
  split; [|split; [apply Hgen|split]].
  - unfold api_key_ok, includes.
    assert (Hin : existsb (N.eqb cu_dot) (a ++ cu_dot :: b ++ cu_dot :: rest) = true).
    { rewrite existsb_app. simpl. apply orb_true_r. }
    rewrite Hin. destruct a; reflexivity.
  - intros tok Htok. rewrite Hgen in Htok. unfold jwt_sign in Htok.
    destruct b; [discriminate|]. injection Htok as <-. split; reflexivity.
  - intros rest'. rewrite !Hgen. reflexivity.
Qed.

Lemma C10_key_with_extra_dots_witness :
  exists a b rest,
    js "a.b.c" = a ++ cu_dot :: b ++ cu_dot :: rest
    /\ free_of (N.eqb cu_dot) a = true
    /\ free_of (N.eqb cu_dot) b = true
    /\ api_key_ok (Some (js "a.b.c")) = true
    /\ generateToken 0 0 (js "a.b.c") 3600
       = jwt_sign {| api_key := a; exp := 3600; timestamp := 0 |} (Some b)
                  {| alg := js "HS256"; sign_type := js "SIGN" |}.
Proof.
  destruct (C10_key_with_extra_dots (js "a.b.c") 0 0 3600) as [H _].
  - simpl. lia.
  - destruct H as (a & b & rest & H1 & H2 & H3 & H4 & H5 & _).
    exists a, b, rest. repeat split; assumption.
Defined.

(** ** Input loader *)

Lemma filter_nonempty_map_trim (lines : list jsstring) :
  List.filter nonempty (List.map trim lines)
  = List.map trim (List.filter (fun l => negb (blank l)) lines).
Proof.
  induction lines as [|l lines IH]; [reflexivity|].
  simpl. unfold blank at 1. rewrite negb_involutive.
  destruct (nonempty (trim l)); simpl; rewrite IH; reflexivity.
Qed.

Lemma filter_partition_length {A} (p : A -> bool) (l : list A) :
  (length (List.filter (fun x => negb (p x)) l) + length (List.filter p l)
   = length l)%nat.
Proof.
  induction l as [|x l IH]; [reflexivity|].
  simpl. destruct (p x); simpl; lia.
Qed.

Lemma readIngredients_readable (w : world) (s : state) (data : jsstring) :
  input_text w = Some data ->
  readIngredients w s
  = (Normal (ingredient_lines data),
     {| trace := trace s ++ [EvReadFileSync INPUT_FILE]; files := files s |}).
Proof.
  intros H. unfold readIngredients, try_catch, bind, emit. rewrite H. reflexivity.
Qed.

(** C3.  For a readable input text made of the given lines (joined by
    newlines, none of them containing a newline), of which N are not
    blank and M are blank, the loader returns exactly N items: the
    trimmed non-blank lines, in the order of the text. *)
Theorem C3_loader_returns_nonblank_lines_in_order
    (w : world) (s : state) (lines : list jsstring) :
  lines <> [] ->
  Forall (fun l => free_of (N.eqb cu_newline) l = true) lines ->
  input_text w = Some (join cu_newline lines) ->
  let N := length (List.filter (fun l => negb (blank l)) lines) in
  let M := length (List.filter blank lines) in
  exists items,
    fst (readIngredients w s) = Normal items
    /\ items = List.map trim (List.filter (fun l => negb (blank l)) lines)
    /\ length items = N
    /\ (N + M = length lines)%nat.
Proof.
  intros Hne Hfree Hin N M.
  exists (ingredient_lines (join cu_newline lines)).
  rewrite (readIngredients_readable w s _ Hin).
  assert (Hlines : ingredient_lines (join cu_newline lines)
                   = List.map trim (List.filter (fun l => negb (blank l)) lines)).
  { unfold ingredient_lines.
    rewrite split_on_join by (reflexivity || assumption).
    apply filter_nonempty_map_trim. }
  repeat split.
  - exact Hlines.
  - rewrite Hlines. unfold N. apply length_map.
  - apply filter_partition_length.
Qed.

Lemma C3_loader_returns_nonblank_lines_in_order_witness :
  exists items,
    fst (readIngredients Examples.w_ok initial_state) = Normal items
    /\ items = [js "Apple," ++ [0x82F9; 0x679C]%N; js "Banana"]
    /\ length items = 2%nat.
Proof.
  destruct (C3_loader_returns_nonblank_lines_in_order Examples.w_ok initial_state
              [js "Apple," ++ [0x82F9; 0x679C]%N; [32%N]; js "Banana"])
    as (items & Hret & Hitems & Hlen & _).
  - discriminate.
  - repeat constructor.
  - reflexivity.
  - exists items. split; [exact Hret|]. split; [exact Hitems | exact Hlen].
Defined.

(** ** Items *)

Lemma is_comma_spec (c : N) :
  is_comma c = true <-> c = cu_comma \/ c = cu_fullwidth_comma.
Proof.
  unfold is_comma. rewrite orb_true_iff, !N.eqb_eq. reflexivity.
Qed.

(** C4.  A line is split on the Western and the full-width comma.  For a
    line without comma the primary name is the trimmed line and the
    secondary label is empty.  For a line [a c b rest], where [c] is a
    comma, [a] and [b] hold none and [rest] is empty or begins with a
    comma, the primary name is [a] trimmed and the secondary label is [b]
    trimmed.  Every line has one of these two shapes.  The two lines of
    the specification come out as stated. *)
Theorem C4_line_split_on_either_comma :
  (forall c, is_comma c = true <-> c = cu_comma \/ c = cu_fullwidth_comma)
  /\ (forall line, free_of is_comma line = true ->
        ingredientEn line = trim line /\ ingredientCn line = [])
  /\ (forall a c b rest,
        free_of is_comma a = true -> is_comma c = true ->
        free_of is_comma b = true ->
        (rest = [] \/ exists c' r, rest = c' :: r /\ is_comma c' = true) ->
        ingredientEn (a ++ c :: b ++ rest) = trim a
        /\ ingredientCn (a ++ c :: b ++ rest) = trim b)
  /\ (forall line,
        free_of is_comma line = true
        \/ exists a c b rest,
             line = a ++ c :: b ++ rest
             /\ free_of is_comma a = true /\ is_comma c = true
             /\ free_of is_comma b = true
             /\ (rest = [] \/ exists c' r, rest = c' :: r /\ is_comma c' = true))
  /\ (ingredientEn (js "Apple," ++ [0x82F9; 0x679C]%N) = js "Apple"
      /\ ingredientCn (js "Apple," ++ [0x82F9; 0x679C]%N) = [0x82F9; 0x679C]%N)
  /\ (ingredientEn (js "Banana") = js "Banana" /\ ingredientCn (js "Banana") = []).
Proof.
  split; [exact is_comma_spec|].
  split.
  { intros line H. unfold ingredientEn, ingredientCn.
    rewrite (split_on_free _ _ H). split; reflexivity. }
  split.
  { intros a c b rest Ha Hc Hb Hrest. unfold ingredientEn, ingredientCn.
    rewrite (split_on_app _ _ _ _ Ha Hc).
    assert (Hb' : exists tl, split_on is_comma (b ++ rest) = b :: tl).
    { destruct Hrest as [-> | (c' & r & -> & Hc')].
      - rewrite app_nil_r, (split_on_free _ _ Hb). eauto.
      - rewrite (split_on_app _ _ _ _ Hb Hc'). eauto. }
    destruct Hb' as [tl ->]. split; reflexivity. }
  split.
  { intros line.
    destruct (cut_at_first is_comma line) as [H | (a & c & tail & -> & Ha & Hc)];
      [left; exact H|].
    right. exists a, c.
    destruct (cut_at_first is_comma tail) as [H | (b & c' & r & -> & Hb & Hc')].
    - exists tail, []. rewrite app_nil_r. repeat split; auto.
    - exists b, (c' :: r). repeat split; auto. right. eauto. }
  split; split; reflexivity.
Qed.

Lemma C4_line_split_on_either_comma_witness :
  ingredientEn (js " Pear " ++ cu_fullwidth_comma :: js " x ,y") = js "Pear"
  /\ ingredientCn (js " Pear " ++ cu_fullwidth_comma :: js " x ,y") = js "x".
Proof.
  destruct C4_line_split_on_either_comma as (_ & _ & H & _ & _).
  apply (H (js " Pear ") cu_fullwidth_comma (js " x ") (js ",y")
           eq_refl eq_refl eq_refl).
  right. exists cu_comma, (js "y"). split; reflexivity.
Defined.

(** C8.  Every line the loader returns is non-empty and already trimmed
    (the lines that are empty after trimming are discarded); its primary
    name is non-empty exactly when the line does not begin with a
    comma. *)
Theorem C8_loaded_lines_and_names (data line : jsstring) :
  In line (ingredient_lines data) ->
  line <> []
  /\ trim line = line
  /\ (nonempty (ingredientEn line) = true
      <-> exists c rest, line = c :: rest /\ is_comma c = false).
Proof.
  unfold ingredient_lines. intros Hin.
  apply filter_In in Hin as [Hin Hne].
  apply in_map_iff in Hin as (l0 & <- & _).
  assert (Htrim : trim (trim l0) = trim l0) by apply trim_idem.
  pose proof (trim_head l0) as Hhead.
  destruct (trim l0) as [|c rest] eqn:E; [discriminate|].
  split; [discriminate|]. split; [exact Htrim|].
  unfold ingredientEn. simpl split_on.
  destruct (is_comma c) eqn:Ec.
  - simpl. split; [discriminate|]. intros (c' & r & [= <- <-] & Hc'). congruence.
  - split; [intros _; eauto|]. intros _.
    destruct (split_on is_comma rest) as [|seg segs]; simpl hd.
    + destruct (trim_cons_keeps c [] Hhead) as [t ->]. reflexivity.
    + destruct (trim_cons_keeps c seg Hhead) as [t ->]. reflexivity.
Qed.

Lemma C8_loaded_lines_and_names_witness :
  js "Apple" <> []
  /\ trim (js "Apple") = js "Apple"
  /\ (nonempty (ingredientEn (js "Apple")) = true
      <-> exists c rest, js "Apple" = c :: rest /\ is_comma c = false).
Proof.
  apply (C8_loaded_lines_and_names (js " Apple " ++ [cu_newline] ++ js "  ")).
  vm_compute. left. reflexivity.
Defined.

(** C8, as stated, fails: the line [,Apple] is kept by the loader and its
    primary name is empty. *)
Lemma C8_counterexample_leading_comma :
  In (js ",Apple") (ingredient_lines (js ",Apple"))
  /\ trim (ingredientEn (js ",Apple")) = [].
Proof. split; [left; reflexivity | reflexivity]. Qed.

(** ** Runs of the program *)

Lemma after_nil s : after s [] = s.
Proof. destruct s. unfold after. simpl. rewrite app_nil_r. reflexivity. Qed.

Lemma getReferenceImageBase64_run (w : world) (s : state) :
  getReferenceImageBase64 w s
  = (Normal (reference_result w), after s (reference_trace w)).
Proof.
  unfold getReferenceImageBase64, reference_result, reference_trace,
    try_catch, bind, emit, console, emit, ret, throw, after.
  destruct (reference_exists w); simpl; [|reflexivity].
  destruct (reference_base64 w); simpl; rewrite <- ?app_assoc; reflexivity.
Qed.

(** [analyzeImageStyle] never throws and never exits. *)
Lemma analyzeImageStyle_run (w : world) (img : jsstring) (tok : Token) (s : state) :
  analyzeImageStyle w img tok s
  = (Normal (analysis_result w img tok), after s (analysis_trace w img tok)).
Proof.
  unfold analyzeImageStyle, analysis_trace, analysis_result, or_type_error,
    try_catch, bind, console, emit, ret, throw, after.
  simpl.
  destruct (vision_endpoint w img tok) as [response|data]; simpl.
  - rewrite <- !app_assoc. reflexivity.
  - destruct (style_of_reply data); simpl; rewrite <- !app_assoc; reflexivity.
Qed.

(** An iteration of the loop always ends normally: whatever goes wrong
    inside its [try] is handled there. *)
Lemma process_item_run (w : world) (tok : Token) (style : option jsstring)
    (total index : nat) (line : jsstring) (s : state) :
  process_item w tok style total index line s
  = (Normal tt, {| trace := trace s ++ item_trace w tok style total index line;
                   files := item_files w tok style index line (files s) |}).
Proof.
  unfold process_item, item_trace, item_files, item_url, generation_failure_log,
    downloadImage, write_file, or_type_error, try_catch, bind, console, emit,
    ret, throw.
  fold (item_prompt style line). fold (item_filename w line). simpl.
  destruct (generation_endpoint w index (item_prompt style line) tok)
    as [[data|]|data]; simpl; rewrite <- ?app_assoc; try reflexivity.
  destruct (url_of_reply data) as [url|]; simpl;
    rewrite <- ?app_assoc; try reflexivity.
  destruct (image_download w index url); simpl;
    rewrite <- ?app_assoc, ?insert_insert_eq; reflexivity.
Qed.

Lemma for_entries_run (w : world) (tok : Token) (style : option jsstring)
    (total : nat) (lines : list jsstring) (index : nat) (s : state) :
  for_entries (process_item w tok style total) index lines s
  = (Normal tt, {| trace := trace s ++ loop_trace w tok style total index lines;
                   files := loop_files w tok style index lines (files s) |}).
Proof.
  revert index s. induction lines as [|line rest IH]; intros index s.
  - simpl. unfold ret. rewrite app_nil_r. destruct s; reflexivity.
  - simpl. unfold bind. rewrite process_item_run, IH. simpl.
    rewrite <- app_assoc. reflexivity.
Qed.

(** The run of a world that gets as far as the loop. *)
Lemma run_started (w : world) (key data : jsstring) (tok : Token) :
  started w key data tok ->
  let lines := ingredient_lines data in
  let style := style_prompt w tok in
  run w
  = (Normal tt,
     {| trace := startup_trace w key data ++ style_trace w tok
                 ++ loop_trace w tok style (length lines) 0 lines;
        files := loop_files w tok style 0 lines ∅ |}).
Proof.
  intros [Hkey Hguard Hdir Hin Htok] lines style.
  unfold run, program, main. rewrite Hkey, Hguard.
  unfold bind at 1. unfold emit at 1. simpl.
  unfold bind at 1.
  assert (Hmk : forall s,
    (if output_dir_exists w then ret tt
     else emit (EvMkdirSync OUTPUT_DIR);;
          (if mkdir_succeeds w then ret tt else throw FsError)) s
    = (Normal tt, after s (if output_dir_exists w then [] else [EvMkdirSync OUTPUT_DIR]))).
  { intros s. destruct (output_dir_exists w); simpl in *.
    - unfold ret. rewrite after_nil. reflexivity.
    - rewrite Hdir. reflexivity. }
  rewrite Hmk. unfold bind at 1. rewrite (readIngredients_readable _ _ _ Hin).
  fold lines.
  unfold bind at 1. unfold console at 1, emit at 1. simpl.
  unfold bind at 1. unfold emit at 1. simpl.
  unfold bind at 1. rewrite Htok. unfold ret at 1.
  unfold bind at 1. rewrite getReferenceImageBase64_run.
  unfold bind at 1.
  assert (Hst : forall s,
    (if truthy (reference_result w)
     then analyzeImageStyle w (default [] (reference_result w)) tok
     else ret None) s
    = (Normal (style_prompt w tok),
       after s (match reference_result w with
                | Some img => if nonempty img then analysis_trace w img tok else []
                | None => []
                end))).
  { intros s. unfold style_prompt. destruct (reference_result w) as [img|]; simpl.
    - destruct (nonempty img); [apply analyzeImageStyle_run|].
      unfold ret. rewrite after_nil. reflexivity.
    - unfold ret. rewrite after_nil. reflexivity. }
  rewrite Hst. fold style.
  unfold bind at 1.
  assert (Hdef : forall s,
    (if truthy style then ret tt else console MsgDefaultTemplate) s
    = (Normal tt, after s (if truthy style then [] else [EvConsole MsgDefaultTemplate]))).
  { intros s. destruct (truthy style); [|reflexivity].
    unfold ret. rewrite after_nil. reflexivity. }
  rewrite Hdef. rewrite for_entries_run.
  unfold after, startup_trace, style_trace, initial_state. simpl.
  fold lines. fold style.
  rewrite <- !app_assoc. reflexivity.
Qed.

(** ** Observations *)


Lemma generation_requests_app t1 t2 :
  generation_requests (t1 ++ t2) = generation_requests t1 ++ generation_requests t2.
Proof. apply flat_map_app. Qed.


Lemma startup_trace_observed (w : world) (key data : jsstring) :
  prompts (startup_trace w key data) = []
  /\ generation_requests (startup_trace w key data) = []
  /\ components (startup_trace w key data) = [Loader; Signer].
Proof.
  unfold startup_trace. destruct (output_dir_exists w); repeat split; reflexivity.
Qed.

Lemma style_trace_observed (w : world) (tok : Token) :
  prompts (style_trace w tok) = []
  /\ generation_requests (style_trace w tok) = []
  /\ exists ran : bool,
       components (style_trace w tok) = if ran then [StyleExtractor] else [].
Proof.
  unfold style_trace, style_prompt, reference_trace, reference_result, analysis_trace.
  destruct (reference_exists w).
  - destruct (reference_base64 w) as [img|].
    + destruct (nonempty img).
      * destruct (analysis_result w img tok) as [style|].
        -- destruct (truthy (Some style)); repeat split; try reflexivity;
             exists true; reflexivity.
        -- repeat split; try reflexivity. exists true. reflexivity.
      * repeat split; try reflexivity. exists false. reflexivity.
    + repeat split; try reflexivity. exists false. reflexivity.
  - repeat split; try reflexivity. exists false. reflexivity.
Qed.



(** ** Startup guard *)




(** ** Style extraction *)





(** ** Order of the components *)


Lemma started_w_ok :
  started Examples.w_ok (js "id.secret")
          (js "Apple," ++ [0x82F9; 0x679C; 10; 32; 10]%N ++ js "Banana") Examples.tok_ok.
Proof. constructor; reflexivity. Qed.



(** ** Files written by the loop *)

Section LoopFiles.

Variables (w : world) (tok : Token) (style : option jsstring).






End LoopFiles.





(** * Further properties of the code *)

(** ** How a run can end *)

Lemma run_guard_fails (w : world) :
  api_key_ok (API_KEY w) = false ->
  run w = (Exited 1, {| trace := [EvConsole MsgBadApiKey; EvExit 1]; files := ∅ |}).
Proof. intros H. unfold run, program. rewrite H. reflexivity. Qed.

Lemma run_mkdir_fails (w : world) :
  api_key_ok (API_KEY w) = true ->
  output_dir_exists w || mkdir_succeeds w = false ->
  run w = (Thrown FsError,
           {| trace := [EvExistsSync OUTPUT_DIR; EvMkdirSync OUTPUT_DIR]; files := ∅ |}).
Proof.
  intros Hguard Hdir. apply orb_false_elim in Hdir as [Hex Hmk].
  unfold run, program, main, bind, emit, throw.
  rewrite Hguard, Hex, Hmk. reflexivity.
Qed.

Lemma run_unreadable_input (w : world) :
  api_key_ok (API_KEY w) = true ->
  output_dir_exists w || mkdir_succeeds w = true ->
  input_text w = None ->
  run w
  = (Exited 1,
     {| trace := EvExistsSync OUTPUT_DIR ::
                 (if output_dir_exists w then [] else [EvMkdirSync OUTPUT_DIR]) ++
                 [EvReadFileSync INPUT_FILE; EvConsole MsgCannotReadInput; EvExit 1];
        files := ∅ |}).
Proof.
  intros Hguard Hdir Hin.
  unfold run, program, main, readIngredients, try_catch, bind, console, emit,
    process_exit, ret, throw.
  rewrite Hguard. simpl.
  destruct (output_dir_exists w); simpl in *.
  - rewrite Hin. reflexivity.
  - rewrite Hdir. simpl. rewrite Hin. reflexivity.
Qed.

Lemma run_token_fails (w : world) (key data : jsstring) :
  API_KEY w = Some key ->
  api_key_ok (Some key) = true ->
  output_dir_exists w || mkdir_succeeds w = true ->
  input_text w = Some data ->
  generateToken (date_now_1 w) (date_now_2 w) key default_expSeconds = None ->
  run w = (Thrown JwtError, {| trace := startup_trace w key data; files := ∅ |}).
Proof.
  intros Hkey Hguard Hdir Hin Htok.
  unfold run, program, main, readIngredients, try_catch, bind, console, emit,
    ret, throw, startup_trace.
  rewrite Hkey, Hguard. simpl.
  destruct (output_dir_exists w); simpl in *.
  - rewrite Hin. simpl. rewrite Htok. reflexivity.
  - rewrite Hdir. simpl. rewrite Hin. simpl. rewrite Htok. reflexivity.
Qed.

(** X1.  When the key passes the guard and the output directory is there
    or can be made, an input file that cannot be read ends the run with
    the diagnostic and exit status 1: the token is never minted, nothing
    is sent over the network and no file is written. *)
Theorem X1_unreadable_input_exits (w : world) :
  api_key_ok (API_KEY w) = true ->
  output_dir_exists w || mkdir_succeeds w = true ->
  input_text w = None ->
  fst (run w) = Exited 1
  /\ last (trace (snd (run w))) = Some (EvExit 1)
  /\ In (EvConsole MsgCannotReadInput) (trace (snd (run w)))
  /\ token_mints (trace (snd (run w))) = []
  /\ existsb is_network_event (trace (snd (run w))) = false
  /\ files (snd (run w)) = ∅.
Proof.
  intros Hguard Hdir Hin.
  rewrite (run_unreadable_input w Hguard Hdir Hin). cbn [fst snd trace files].
  destruct (output_dir_exists w); repeat split; try reflexivity; simpl; auto.
Qed.

Lemma X1_unreadable_input_exits_witness :
  fst (run MoreExamples.w_unreadable_input) = Exited 1
  /\ token_mints (trace (snd (run MoreExamples.w_unreadable_input))) = []
  /\ existsb is_network_event (trace (snd (run MoreExamples.w_unreadable_input))) = false.
Proof.
  destruct (X1_unreadable_input_exits MoreExamples.w_unreadable_input
              eq_refl eq_refl eq_refl) as (H1 & _ & _ & H2 & H3 & _).
  split; [exact H1|]. split; assumption.
Defined.

(** X2.  In no world is a request sent over the network unless the key
    has passed the guard, the output directory is there or has been made,
    the input has been read and the token has been minted. *)
Theorem X2_no_request_before_startup (w : world) :
  existsb is_network_event (trace (snd (run w))) = true ->
  exists key data tok, started w key data tok.
Proof.
  intros Hnet.
  destruct (api_key_ok (API_KEY w)) eqn:Hguard.
  2:{ rewrite (run_guard_fails w Hguard) in Hnet. discriminate Hnet. }
  destruct (output_dir_exists w || mkdir_succeeds w) eqn:Hdir.
  2:{ rewrite (run_mkdir_fails w Hguard Hdir) in Hnet. discriminate Hnet. }
  destruct (input_text w) as [data|] eqn:Hin.
  2:{ rewrite (run_unreadable_input w Hguard Hdir Hin) in Hnet. cbn [snd trace] in Hnet.
      destruct (output_dir_exists w); discriminate Hnet. }
  destruct (API_KEY w) as [key|] eqn:Hkey; [|discriminate Hguard].
  destruct (generateToken (date_now_1 w) (date_now_2 w) key default_expSeconds)
    as [tok|] eqn:Htok.
  { exists key, data, tok. constructor; assumption. }
  rewrite (run_token_fails w key data Hkey Hguard Hdir Hin Htok) in Hnet.
  cbn [snd trace] in Hnet. unfold startup_trace in Hnet.
  destruct (output_dir_exists w); discriminate Hnet.
Qed.

Lemma X2_no_request_before_startup_witness :
  exists key data tok, started Examples.w_ok key data tok.
Proof.
  apply (X2_no_request_before_startup Examples.w_ok). vm_compute. reflexivity.
Defined.

(** X3.  A run exits through [process.exit] only with status 1, and only
    when the key fails the guard or the input file cannot be read; it
    never exits that way once the loop has been reached. *)
Theorem X3_exit_status (w : world) (code : Z) :
  fst (run w) = Exited code ->
  code = 1%Z
  /\ last (trace (snd (run w))) = Some (EvExit 1)
  /\ (api_key_ok (API_KEY w) = false \/ input_text w = None)
  /\ existsb is_network_event (trace (snd (run w))) = false.
Proof.
  intros Hexit.
  destruct (api_key_ok (API_KEY w)) eqn:Hguard.
  2:{ rewrite (run_guard_fails w Hguard) in *. injection Hexit as <-.
      repeat split; auto. }
  destruct (output_dir_exists w || mkdir_succeeds w) eqn:Hdir.
  2:{ rewrite (run_mkdir_fails w Hguard Hdir) in Hexit. discriminate Hexit. }
  destruct (input_text w) as [data|] eqn:Hin.
  2:{ rewrite (run_unreadable_input w Hguard Hdir Hin) in *. injection Hexit as <-.
      cbn [snd trace]. destruct (output_dir_exists w); repeat split; auto. }
  destruct (API_KEY w) as [key|] eqn:Hkey; [|discriminate Hguard].
  destruct (generateToken (date_now_1 w) (date_now_2 w) key default_expSeconds)
    as [tok|] eqn:Htok.
  - assert (Hst : started w key data tok) by (constructor; assumption).
    rewrite (run_started w key data tok Hst) in Hexit. discriminate Hexit.
  - rewrite (run_token_fails w key data Hkey Hguard Hdir Hin Htok) in Hexit.
    discriminate Hexit.
Qed.

Lemma X3_exit_status_witness :
  (1 = 1)%Z
  /\ last (trace (snd (run Examples.w_bad_key))) = Some (EvExit 1)
  /\ (api_key_ok (API_KEY Examples.w_bad_key) = false
      \/ input_text Examples.w_bad_key = None)
  /\ existsb is_network_event (trace (snd (run Examples.w_bad_key))) = false.
Proof.
  apply (X3_exit_status Examples.w_bad_key 1). reflexivity.
Defined.

(** ** Token and style over a whole run *)

Lemma request_tokens_app t1 t2 :
  request_tokens (t1 ++ t2) = request_tokens t1 ++ request_tokens t2.
Proof. apply flat_map_app. Qed.

Lemma token_mints_app t1 t2 : token_mints (t1 ++ t2) = token_mints t1 ++ token_mints t2.
Proof. apply flat_map_app. Qed.

Lemma vision_requests_app t1 t2 :
  vision_requests (t1 ++ t2) = vision_requests t1 ++ vision_requests t2.
Proof. apply flat_map_app. Qed.

Lemma streams_created_app t1 t2 :
  streams_created (t1 ++ t2) = streams_created t1 ++ streams_created t2.
Proof. apply flat_map_app. Qed.

Lemma startup_trace_requests (w : world) (key data : jsstring) :
  request_tokens (startup_trace w key data) = []
  /\ token_mints (startup_trace w key data) = [Some key]
  /\ vision_requests (startup_trace w key data) = []
  /\ streams_created (startup_trace w key data) = [].
Proof.
  unfold startup_trace. destruct (output_dir_exists w); repeat split; reflexivity.
Qed.

Lemma style_trace_requests (w : world) (tok : Token) :
  Forall (fun t => t = tok) (request_tokens (style_trace w tok))
  /\ token_mints (style_trace w tok) = []
  /\ vision_requests (style_trace w tok)
     = match reference_result w with
       | Some img => if nonempty img then [img] else []
       | None => []
       end
  /\ streams_created (style_trace w tok) = [].
Proof.
  unfold style_trace, style_prompt, reference_trace, reference_result, analysis_trace.
  destruct (reference_exists w).
  - destruct (reference_base64 w) as [img|].
    + destruct (nonempty img).
      * destruct (analysis_result w img tok) as [style|].
        -- destruct (truthy (Some style)); repeat split; try reflexivity;
             repeat constructor.
        -- repeat split; try reflexivity; repeat constructor.
      * repeat split; try reflexivity; constructor.
    + repeat split; try reflexivity; constructor.
  - repeat split; try reflexivity; constructor.
Qed.

Lemma item_trace_requests (w : world) (tok : Token) (style : option jsstring)
    (total index : nat) (line : jsstring) :
  request_tokens (item_trace w tok style total index line) = [tok]
  /\ token_mints (item_trace w tok style total index line) = []
  /\ vision_requests (item_trace w tok style total index line) = []
  /\ streams_created (item_trace w tok style total index line)
     = match item_url w tok style index line with
       | Some _ => [item_filename w line]
       | None => []
       end.
Proof.
  unfold item_trace, generation_failure_log.
  destruct (item_url w tok style index line) as [url|].
  - destruct (image_download w index url); repeat split; reflexivity.
  - destruct (generation_endpoint w index (item_prompt style line) tok)
      as [[data|]|data]; repeat split; reflexivity.
Qed.

Lemma loop_trace_requests (w : world) (tok : Token) (style : option jsstring)
    (total : nat) (lines : list jsstring) (index : nat) :
  Forall (fun t => t = tok) (request_tokens (loop_trace w tok style total index lines))
  /\ token_mints (loop_trace w tok style total index lines) = []
  /\ vision_requests (loop_trace w tok style total index lines) = []
  /\ Forall (fun path => exists line, In line lines /\ path = item_filename w line)
            (streams_created (loop_trace w tok style total index lines)).
Proof.
  revert index. induction lines as [|line rest IH]; intros index.
  - repeat split; constructor.
  - destruct (IH (S index)) as (Ht & Hm & Hv & Hs).
    destruct (item_trace_requests w tok style total index line) as (Ht1 & Hm1 & Hv1 & Hs1).
    cbn [loop_trace].
    rewrite request_tokens_app, token_mints_app, vision_requests_app, streams_created_app.
    rewrite Ht1, Hm1, Hv1, Hs1, Hm, Hv. cbn [app].
    split; [|split; [reflexivity|split; [reflexivity|]]].
    + constructor; [reflexivity | exact Ht].
    + apply Forall_app. split.
      * destruct (item_url w tok style index line); repeat constructor.
        exists line. split; [left; reflexivity | reflexivity].
      * eapply Forall_impl; [exact Hs|].
        intros path (l & Hin & ->). exists l. split; [right; exact Hin | reflexivity].
Qed.


(** X4.  In a run that gets as far as the loop, [generateToken] is called
    exactly once, with the key of the environment, and every request to
    the vision and the generation endpoint carries the token minted
    then: the token is never minted anew. *)
Theorem X4_one_token_for_all_requests (w : world) (key data : jsstring) (tok : Token) :
  started w key data tok ->
  token_mints (trace (snd (run w))) = [Some key]
  /\ Forall (fun t => t = tok) (request_tokens (trace (snd (run w)))).
Proof.
  intros Hst. rewrite (run_started w key data tok Hst). cbn [snd trace].
  rewrite !token_mints_app, !request_tokens_app.
  destruct (startup_trace_requests w key data) as (-> & -> & _).
  destruct (style_trace_requests w tok) as (Ht & -> & _).
  destruct (loop_trace_requests w tok (style_prompt w tok)
              (length (ingredient_lines data)) (ingredient_lines data) 0)
    as (Hl & -> & _).
  split; [reflexivity|]. simpl. apply Forall_app. split; assumption.
Qed.

Lemma X4_one_token_for_all_requests_witness :
  token_mints (trace (snd (run Examples.w_ok))) = [Some (js "id.secret")]
  /\ Forall (fun t => t = Examples.tok_ok) (request_tokens (trace (snd (run Examples.w_ok)))).
Proof.
  exact (X4_one_token_for_all_requests Examples.w_ok _ _ _ started_w_ok).
Defined.









(** ** The reply of the vision endpoint *)

Lemma strip_prefix_ci_app (pat l text : jsstring) :
  List.map ascii_upper l = List.map ascii_upper pat ->
  strip_prefix_ci pat (l ++ text) = Some text.
Proof.
  revert l. induction pat as [|a pat IH]; intros [|b l] H; try discriminate H.
  - reflexivity.
  - injection H as Hb Hl. cbn [app strip_prefix_ci].
    rewrite Hb, N.eqb_refl. apply IH, Hl.
Qed.

Lemma style_of_vision_reply (content : jsstring) :
  style_of_reply (vision_reply content) = Some (trim (strip_style_label content)).
Proof. reflexivity. Qed.

(** X8.  From a reply of the expected shape whose text begins with the
    label [Style description:] in any mix of upper and lower case, the
    style extractor returns the text after the label, trimmed.  Whatever
    the reply, a descriptor that is returned is trimmed. *)
Theorem X8_style_label_removed (label text : jsstring) :
  List.map ascii_upper label = List.map ascii_upper (js "Style description:") ->
  style_of_reply (vision_reply (label ++ text)) = Some (trim text)
  /\ forall reply style, style_of_reply reply = Some style -> trim style = style.
Proof.
  intros Hlabel. split.
  - rewrite style_of_vision_reply. unfold strip_style_label.
    rewrite (strip_prefix_ci_app _ _ _ Hlabel). reflexivity.
  - intros reply style. unfold style_of_reply.
    destruct (get_member (js "choices") reply) as [choices|]; [|discriminate].
    cbn [mbind option_bind].
    destruct (get_first choices) as [first|]; [|discriminate].
    cbn [mbind option_bind].
    destruct (get_member (js "message") first) as [message|]; [|discriminate].
    cbn [mbind option_bind].
    destruct (get_member (js "content") message) as [content|]; [|discriminate].
    cbn [mbind option_bind].
    destruct content; try discriminate.
    intros [= <-]. apply trim_idem.
Qed.

Lemma X8_style_label_removed_witness :
  style_of_reply (vision_reply (js "STYLE Description:" ++ js "  flat, bold lines "))
  = Some (js "flat, bold lines").
Proof.
  destruct (X8_style_label_removed (js "STYLE Description:") (js "  flat, bold lines ")
              eq_refl) as [H _].
  rewrite H. reflexivity.
Defined.

(** ** The signer on its own *)

(** X9.  For a key [id.secret] with no dot in [id] and a non-empty
    [secret] without dot, the guard passes and the token has the fixed
    header, [id] as [api_key], [secret] as signing secret, the first
    clock reading in seconds plus the time to live as [exp] and the
    second clock reading in seconds as [timestamp]. *)
Theorem X9_token_of_well_formed_key (id secret : jsstring) (now1 now2 expSeconds : Z) :
  free_of (N.eqb cu_dot) id = true ->
  free_of (N.eqb cu_dot) secret = true ->
  secret <> [] ->
  api_key_ok (Some (id ++ cu_dot :: secret)) = true
  /\ generateToken now1 now2 (id ++ cu_dot :: secret) expSeconds
     = Some {| tok_header := {| alg := js "HS256"; sign_type := js "SIGN" |};
               tok_payload := {| api_key := id;
                                 exp := (now1 / 1000 + expSeconds)%Z;
                                 timestamp := (now2 / 1000)%Z |};
               tok_secret := secret |}.
Proof.
  intros Hid Hsecret Hne. split.
  - unfold api_key_ok, includes. rewrite existsb_app. simpl.
    rewrite orb_true_r. destruct id; reflexivity.
  - unfold generateToken.
    rewrite split_on_app by (assumption || reflexivity).
    rewrite (split_on_free _ _ Hsecret). simpl.
    destruct secret; [congruence | reflexivity].
Qed.

Lemma X9_token_of_well_formed_key_witness :
  generateToken 1700000000000 1700000000000 (js "id.secret") 3600 = Some Examples.tok_ok.
Proof.
  destruct (X9_token_of_well_formed_key (js "id") (js "secret")
              1700000000000 1700000000000 3600 eq_refl eq_refl) as [_ H].
  - discriminate.
  - exact H.
Defined.

Lemma split_on_two (p : N -> bool) (s a b : jsstring) (tl : list jsstring) :
  split_on p s = a :: b :: tl ->
  free_of p a = true /\ free_of p b = true
  /\ exists c rest, p c = true /\ s = a ++ c :: b ++ rest
                    /\ (rest = [] \/ exists c' r, p c' = true /\ rest = c' :: r).
Proof.
  intros H.
  destruct (cut_at_first p s) as [Hf | (a' & c & tail & -> & Ha & Hc)].
  { rewrite (split_on_free _ _ Hf) in H. discriminate H. }
  rewrite (split_on_app _ _ _ _ Ha Hc) in H. injection H as <- H.
  destruct (cut_at_first p tail) as [Hf | (b' & c' & r & -> & Hb & Hc')].
  - rewrite (split_on_free _ _ Hf) in H. injection H as <- _.
    repeat split; try assumption. exists c, []. rewrite app_nil_r. auto.
  - rewrite (split_on_app _ _ _ _ Hb Hc') in H. injection H as <- _.
    repeat split; try assumption. exists c, (c' :: r). repeat split; eauto.
Qed.

(** X10.  Whenever the signer returns a token, the key passes the guard,
    and identifier and secret of the token are the text before the first
    dot of the key and the text between the first dot and the second (or
    the end): neither holds a dot. *)
Theorem X10_minted_token_comes_from_key
    (key : jsstring) (now1 now2 expSeconds : Z) (tok : Token) :
  generateToken now1 now2 key expSeconds = Some tok ->
  api_key_ok (Some key) = true
  /\ free_of (N.eqb cu_dot) (api_key (tok_payload tok)) = true
  /\ free_of (N.eqb cu_dot) (tok_secret tok) = true
  /\ exists rest,
       key = api_key (tok_payload tok) ++ cu_dot :: tok_secret tok ++ rest
       /\ (rest = [] \/ exists r, rest = cu_dot :: r).
Proof.
  unfold generateToken, jwt_sign. intros H.
  destruct (split_on (N.eqb cu_dot) key) as [|a [|b tl]] eqn:Hsplit;
    cbn [nth_error hd] in H; try discriminate H.
  destruct b as [|c0 b]; [discriminate H|].
  injection H as <-. cbn [tok_payload tok_secret api_key].
  destruct (split_on_two _ _ _ _ _ Hsplit) as (Ha & Hb & c & rest & Hc & -> & Hrest).
  apply N.eqb_eq in Hc. subst c.
  split.
  { unfold api_key_ok, includes. rewrite existsb_app. simpl.
    rewrite orb_true_r. destruct a; reflexivity. }
  split; [exact Ha|]. split; [exact Hb|].
  exists rest. split; [reflexivity|].
  destruct Hrest as [-> | (c' & r & Hc' & ->)]; [left; reflexivity|].
  apply N.eqb_eq in Hc'. subst c'. right. eauto.
Qed.

Lemma X10_minted_token_comes_from_key_witness :
  api_key_ok (Some (js "id.secret.more")) = true
  /\ exists rest, js "id.secret.more" = js "id" ++ cu_dot :: js "secret" ++ rest
                  /\ (rest = [] \/ exists r, rest = cu_dot :: r).
Proof.
  destruct (X10_minted_token_comes_from_key (js "id.secret.more") 0 0 3600
              {| tok_header := {| alg := js "HS256"; sign_type := js "SIGN" |};
                 tok_payload := {| api_key := js "id"; exp := 3600; timestamp := 0 |};
                 tok_secret := js "secret" |} eq_refl)
    as (H1 & _ & _ & H2).
  split; [exact H1 | exact H2].
Defined.

(** X11.  When the clock does not run backwards between the two readings
    of [generateToken], the expiry of the token is at most its timestamp
    plus the time to live; when moreover less than a second passes
    between the readings, it is at most one second short of that. *)
Theorem X11_expiry_bounds (key : jsstring) (now1 now2 expSeconds : Z) (tok : Token) :
  generateToken now1 now2 key expSeconds = Some tok ->
  (now1 <= now2)%Z ->
  (exp (tok_payload tok) <= timestamp (tok_payload tok) + expSeconds)%Z
  /\ ((now2 < now1 + 1000)%Z ->
      (timestamp (tok_payload tok) + expSeconds - 1 <= exp (tok_payload tok))%Z).
Proof.
  intros Htok Hmono.
  apply generateToken_payload in Htok as [-> ->].
  assert (H1 : (now1 / 1000 <= now2 / 1000)%Z) by (apply Z.div_le_mono; lia).
  split; [lia|]. intros Hclose.
  assert (H2 : (now2 / 1000 <= (now1 + 1 * 1000) / 1000)%Z)
    by (apply Z.div_le_mono; lia).
  rewrite Z.div_add in H2 by lia. lia.
Qed.

Lemma X11_expiry_bounds_witness :
  (3601 <= 2 + 3600)%Z /\ ((2000 < 1999 + 1000)%Z -> (2 + 3600 - 1 <= 3601)%Z).
Proof.
  exact (X11_expiry_bounds (js "id.secret") 1999 2000 3600
           {| tok_header := {| alg := js "HS256"; sign_type := js "SIGN" |};
              tok_payload := {| api_key := js "id"; exp := 3601; timestamp := 2 |};
              tok_secret := js "secret" |} eq_refl ltac:(lia)).
Defined.

(** ** The loader on its own *)

Lemma free_of_app p s t : free_of p (s ++ t) = free_of p s && free_of p t.
Proof. apply forallb_app. Qed.

Lemma free_of_rev p s : free_of p (rev s) = free_of p s.
Proof.
  induction s as [|c s IH]; [reflexivity|].
  simpl rev. rewrite free_of_app, IH. simpl. rewrite andb_true_r. apply andb_comm.
Qed.

Lemma free_of_trimStart p s : free_of p s = true -> free_of p (trimStart s) = true.
Proof.
  induction s as [|c s IH]; [reflexivity|].
  intros H. simpl. destruct (is_trim_space c); [|exact H].
  simpl in H. apply andb_prop in H as [_ H]. apply IH, H.
Qed.

Lemma free_of_trim p s : free_of p s = true -> free_of p (trim s) = true.
Proof.
  intros H. unfold trim, trimEnd. rewrite free_of_rev.
  apply free_of_trimStart. rewrite free_of_rev. apply free_of_trimStart, H.
Qed.

Lemma split_on_segments_free p s :
  Forall (fun seg => free_of p seg = true) (split_on p s).
Proof.
  induction s as [|c s IH]; simpl.
  - repeat constructor.
  - destruct (p c) eqn:E.
    + constructor; [reflexivity | exact IH].
    + destruct (split_on p s) as [|seg segs]; [repeat constructor; simpl; rewrite E; reflexivity|].
      inversion IH as [|? ? Hseg Hsegs]; subst.
      constructor; [|exact Hsegs]. simpl. rewrite E, Hseg. reflexivity.
Qed.

(** What every loaded line is like. *)
Lemma ingredient_lines_shape (data : jsstring) :
  Forall (fun line => nonempty line = true /\ trim line = line
                      /\ free_of (N.eqb cu_newline) line = true)
         (ingredient_lines data).
Proof.
  unfold ingredient_lines.
  pose proof (split_on_segments_free (N.eqb cu_newline) data) as Hfree.
  induction Hfree as [|seg segs Hseg Hsegs IH]; [constructor|].
  simpl. destruct (nonempty (trim seg)) eqn:E; [|exact IH].
  constructor; [|exact IH].
  split; [exact E|]. split; [apply trim_idem | apply free_of_trim, Hseg].
Qed.

Lemma trim_snoc_space s c : is_trim_space c = true -> trim (s ++ [c]) = trim s.
Proof.
  intros H. unfold trim. rewrite <- !trimStart_trimEnd_comm.
  f_equal. unfold trimEnd. rewrite rev_app_distr. simpl. rewrite H. reflexivity.
Qed.

(** X12.  Writing the loaded lines out again, one per line, and loading
    that text gives the same lines: the loader is idempotent on its own
    output. *)
Theorem X12_loading_the_loaded_lines (data : jsstring) :
  ingredient_lines (join cu_newline (ingredient_lines data)) = ingredient_lines data.
Proof.
  pose proof (ingredient_lines_shape data) as Hshape.
  destruct (ingredient_lines data) as [|l0 ls] eqn:E; [reflexivity|].
  unfold ingredient_lines at 1.
  rewrite split_on_join.
  - clear E. induction Hshape as [|l rest (Hne & Htrim & _) _ IH]; [reflexivity|].
    simpl. rewrite Htrim, Hne, IH. reflexivity.
  - reflexivity.
  - discriminate.
  - eapply Forall_impl; [exact Hshape|]. intros l (_ & _ & H). exact H.
Qed.

(** X13.  A text whose lines are separated by carriage return and
    newline loads to the same items as the text with the same lines
    separated by newlines only. *)
Theorem X13_crlf_line_endings (lines : list jsstring) :
  Forall (fun l => free_of (N.eqb cu_newline) l = true) lines ->
  ingredient_lines (join_crlf lines) = ingredient_lines (join cu_newline lines).
Proof.
  intros Hfree.
  assert (H : forall sep_text,
            (exists segs, split_on (N.eqb cu_newline) sep_text = segs
                          /\ List.map trim segs = List.map trim lines) ->
            ingredient_lines sep_text = List.filter nonempty (List.map trim lines)).
  { intros t (segs & Hsplit & Htrim). unfold ingredient_lines.
    rewrite Hsplit, Htrim. reflexivity. }
  destruct lines as [|l0 ls]; [reflexivity|].
  rewrite (H (join_crlf (l0 :: ls))), (H (join cu_newline (l0 :: ls))); [reflexivity| |].
  - eexists. split; [|reflexivity]. apply split_on_join; [reflexivity|discriminate|exact Hfree].
  - clear H. revert l0 Hfree. induction ls as [|l1 ls IH]; intros l0 Hfree.
    + exists [l0]. split; [|reflexivity].
      inversion Hfree; subst. apply split_on_free. assumption.
    + inversion Hfree as [|? ? Hl0 Hrest]; subst.
      destruct (IH l1 Hrest) as (segs & Hsplit & Htrim).
      exists ((l0 ++ [cu_return]) :: segs). split.
      * change (join_crlf (l0 :: l1 :: ls))
          with (l0 ++ cu_return :: cu_newline :: join_crlf (l1 :: ls)).
        replace (l0 ++ cu_return :: cu_newline :: join_crlf (l1 :: ls))
          with ((l0 ++ [cu_return]) ++ cu_newline :: join_crlf (l1 :: ls))
          by (rewrite <- app_assoc; reflexivity).
        rewrite split_on_app; [rewrite Hsplit; reflexivity| |reflexivity].
        rewrite free_of_app, Hl0. reflexivity.
      * cbn [List.map]. rewrite Htrim, trim_snoc_space by reflexivity. reflexivity.
Qed.

Lemma X13_crlf_line_endings_witness :
  ingredient_lines (join_crlf [js "Apple"; js "Pear"; []]) = [js "Apple"; js "Pear"].
Proof.
  rewrite (X13_crlf_line_endings [js "Apple"; js "Pear"; []]); [reflexivity|].
  repeat constructor.
Defined.

Lemma ingredient_lines_all_blank (data : jsstring) :
  Forall (fun l => blank l = true) (split_on (N.eqb cu_newline) data) ->
  ingredient_lines data = [].
Proof.
  unfold ingredient_lines. intros H.
  induction H as [|l ls Hl _ IH]; [reflexivity|].
  simpl. unfold blank in Hl. apply negb_true_iff in Hl. rewrite Hl. exact IH.
Qed.

(** X14.  When every line of the input is blank (the empty file is such
    an input), the run still mints the token and looks for the reference
    picture, but sends no generation request, creates no write stream and
    writes no file, and ends normally. *)
Theorem X14_blank_input_does_nothing
    (w : world) (key data : jsstring) (tok : Token) :
  started w key data tok ->
  Forall (fun l => blank l = true) (split_on (N.eqb cu_newline) data) ->
  fst (run w) = Normal tt
  /\ In (EvConsole (MsgFound 0 [])) (trace (snd (run w)))
  /\ generation_requests (trace (snd (run w))) = []
  /\ streams_created (trace (snd (run w))) = []
  /\ files (snd (run w)) = ∅.
Proof.
  intros Hst Hblank.
  pose proof (ingredient_lines_all_blank data Hblank) as Hnone.
  rewrite (run_started w key data tok Hst). cbn [fst snd trace files].
  rewrite !generation_requests_app, !streams_created_app.
  destruct (startup_trace_requests w key data) as (_ & _ & _ & ->).
  destruct (startup_trace_observed w key data) as (_ & -> & _).
  destruct (style_trace_requests w tok) as (_ & _ & _ & ->).
  destruct (style_trace_observed w tok) as (_ & -> & _).
  unfold startup_trace. rewrite Hnone. cbn [loop_trace loop_files length].
  repeat split.
  right. apply in_or_app. left. apply in_or_app. right. right. left. reflexivity.
Qed.

Lemma started_w_blank_input :
  started MoreExamples.w_blank_input (js "id.secret") [32; 10; 13; 10; 9]%N Examples.tok_ok.
Proof. constructor; reflexivity. Qed.

Lemma X14_blank_input_does_nothing_witness :
  fst (run MoreExamples.w_blank_input) = Normal tt
  /\ generation_requests (trace (snd (run MoreExamples.w_blank_input))) = []
  /\ files (snd (run MoreExamples.w_blank_input)) = ∅.
Proof.
  destruct (X14_blank_input_does_nothing MoreExamples.w_blank_input _ _ _
              started_w_blank_input) as (H1 & _ & H2 & _ & H3).
  - repeat constructor.
  - split; [exact H1|]. split; [exact H2 | exact H3].
Defined.

(** ** Items and their files *)

(** X15.  Whatever follows the first comma of a line is for display
    only: the primary name, the prompt and the name of the output file
    are those of the text before the first comma. *)
Theorem X15_text_after_first_comma_is_display_only
    (w : world) (style : option jsstring) (a : jsstring) (c : N) (rest : jsstring) :
  free_of is_comma a = true ->
  is_comma c = true ->
  ingredientEn (a ++ c :: rest) = trim a
  /\ item_prompt style (a ++ c :: rest) = item_prompt style a
  /\ item_filename w (a ++ c :: rest) = item_filename w a.
Proof.
  intros Ha Hc.
  assert (H1 : ingredientEn (a ++ c :: rest) = trim a).
  { unfold ingredientEn. rewrite (split_on_app _ _ _ _ Ha Hc). reflexivity. }
  assert (H2 : ingredientEn a = trim a).
  { unfold ingredientEn. rewrite (split_on_free _ _ Ha). reflexivity. }
  unfold item_prompt, item_filename. rewrite H1, H2. repeat split.
Qed.

Lemma X15_text_after_first_comma_is_display_only_witness :
  ingredientEn (js "Apple" ++ cu_fullwidth_comma :: js "red, sweet") = js "Apple"
  /\ item_filename Examples.w_ok (js "Apple" ++ cu_fullwidth_comma :: js "red, sweet")
     = js "output/Apple.png".
Proof.
  destruct (X15_text_after_first_comma_is_display_only Examples.w_ok None
              (js "Apple") cu_fullwidth_comma (js "red, sweet") eq_refl eq_refl)
    as (H1 & _ & H3).
  split; [rewrite H1 | rewrite H3]; reflexivity.
Defined.











(** X20.  When the output directory is missing and cannot be made, the
    exception of [mkdirSync] ends the run: no diagnostic of the program
    is printed, the input file is not read, no token is minted and
    nothing is sent over the network. *)
Theorem X20_missing_output_directory (w : world) :
  api_key_ok (API_KEY w) = true ->
  output_dir_exists w = false ->
  mkdir_succeeds w = false ->
  fst (run w) = Thrown FsError
  /\ trace (snd (run w)) = [EvExistsSync OUTPUT_DIR; EvMkdirSync OUTPUT_DIR]
  /\ files_read (trace (snd (run w))) = []
  /\ token_mints (trace (snd (run w))) = []
  /\ existsb is_network_event (trace (snd (run w))) = false.
Proof.
  intros Hguard Hex Hmk.
  rewrite (run_mkdir_fails w Hguard) by (rewrite Hex, Hmk; reflexivity).
  repeat split.
Qed.

Lemma X20_missing_output_directory_witness :
  fst (run MoreExamples.w_no_output_dir) = Thrown FsError
  /\ files_read (trace (snd (run MoreExamples.w_no_output_dir))) = [].
Proof.
  destruct (X20_missing_output_directory MoreExamples.w_no_output_dir
              eq_refl eq_refl eq_refl) as (H1 & _ & H2 & _).
  split; [exact H1 | exact H2].
Defined.
